(** * UIDRemovalDetection: card lock / removal detection on an MFRC522 reader

    A shallow embedding of the Arduino sketch
    [UIDRemovalDetection/UIDRemovalDetection.ino].  The sketch keeps two
    pieces of state, the global [locked] and the [uid] member of the reader
    object [rfid], and talks to two collaborators: the MFRC522 driver and the
    serial port.  Both collaborators are outside the sketch, so the driver is
    an interface (a type class over the state of the chip) and every call the
    sketch makes is written to a journal, in program order, next to the text
    it prints. *)

From Stdlib Require Import ZArith List String Ascii Bool Lia.
Import ListNotations.
Local Open Scope string_scope.
Local Open Scope list_scope.
Local Open Scope Z_scope.

(** ** Data of the MFRC522 library that the sketch touches *)

(** [MFRC522::StatusCode]. *)
Inductive StatusCode : Type :=
  | STATUS_OK
  | STATUS_ERROR
  | STATUS_COLLISION
  | STATUS_TIMEOUT
  | STATUS_NO_ROOM
  | STATUS_INTERNAL_ERROR
  | STATUS_INVALID
  | STATUS_CRC_WRONG
  | STATUS_MIFARE_NACK.

Definition StatusCode_eqb (a b : StatusCode) : bool :=
  match a, b with
  | STATUS_OK, STATUS_OK
  | STATUS_ERROR, STATUS_ERROR
  | STATUS_COLLISION, STATUS_COLLISION
  | STATUS_TIMEOUT, STATUS_TIMEOUT
  | STATUS_NO_ROOM, STATUS_NO_ROOM
  | STATUS_INTERNAL_ERROR, STATUS_INTERNAL_ERROR
  | STATUS_INVALID, STATUS_INVALID
  | STATUS_CRC_WRONG, STATUS_CRC_WRONG
  | STATUS_MIFARE_NACK, STATUS_MIFARE_NACK => true
  | _, _ => false
  end.

(** The registers of [MFRC522::PCD_Register] that the sketch writes. *)
Inductive PCD_Register : Type :=
  | TxModeReg
  | RxModeReg
  | ModWidthReg.

(** [MFRC522::Uid]: a length, the byte array and the SAK byte.  Bytes are
    integers; [uidByte] is the array [byte uidByte[10]]. *)
Record Uid : Type := mkUid {
  size : Z;
  uidByte : list Z;
  sak : Z
}.

(** Conversion of an [int] argument to a [byte] parameter. *)
Definition to_byte (x : Z) : Z := x mod 256.

(** The Identifier of the specification: the first [size] bytes of the
    array. *)
Definition identifier (u : Uid) : list Z :=
  firstn (Z.to_nat (size u)) (uidByte u).

(** A [Uid] whose length stays inside its array. *)
Definition Uid_in_bounds (u : Uid) : Prop :=
  0 <= size u <= Z.of_nat (List.length (uidByte u)) /\ size u < 256.

(** ** The driver interface

    The methods of class [MFRC522] that the sketch calls, as functions on the
    state [HW] of the reader chip and of the cards in its field.
    [PICC_WakeupA] gets the size of the ATQA buffer; the bytes it writes into
    that buffer are local to [PICC_IsAnyCardPresent] and never read.
    [PICC_Select] receives the [Uid] behind the pointer and hands it back,
    since it may write through the pointer. *)
Class MFRC522 (HW : Type) : Type := {
  PCD_Init : HW -> HW;
  PCD_WriteRegister : PCD_Register -> Z -> HW -> HW;
  PICC_WakeupA : Z -> HW -> StatusCode * HW;
  PICC_Select : Uid -> Z -> HW -> StatusCode * Uid * HW;
  PICC_HaltA : HW -> StatusCode * HW;
  GetStatusCodeName : StatusCode -> string
}.

(** ** The journal of a run *)

Inductive Action : Type :=
  | Serial_begin (baud : Z)
  | SPI_begin
  | Call_PCD_Init
  | Call_delay (ms : Z)
  | Call_PCD_WriteRegister (reg : PCD_Register) (value : Z)
  | Call_PICC_WakeupA (bufferSize : Z)
  | Call_PICC_Select (u : Uid) (validBits : Z)
  | Call_PICC_HaltA
  | Print (text : string)
  | Println.

Definition CRLF : string := String (ascii_of_nat 13) (String (ascii_of_nat 10) "").

(** The text that reaches the serial port. *)
Fixpoint serial_text (j : list Action) : string :=
  match j with
  | [] => ""
  | Print s :: j' => (s ++ serial_text j')%string
  | Println :: j' => (CRLF ++ serial_text j')%string
  | _ :: j' => serial_text j'
  end.

(** The number of lines finished on the serial port: one per event. *)
Fixpoint lines_emitted (j : list Action) : nat :=
  match j with
  | [] => 0
  | Println :: j' => S (lines_emitted j')
  | _ :: j' => lines_emitted j'
  end.

Definition is_halt (a : Action) : bool :=
  match a with Call_PICC_HaltA => true | _ => false end.

Definition is_select (a : Action) : bool :=
  match a with Call_PICC_Select _ _ => true | _ => false end.

Definition is_wakeup (a : Action) : bool :=
  match a with Call_PICC_WakeupA _ => true | _ => false end.

Definition is_print (a : Action) : bool :=
  match a with Print _ => true | _ => false end.

(** Text sent to the serial port, as opposed to a call of the driver. *)
Definition is_output (a : Action) : bool :=
  match a with Print _ | Println => true | _ => false end.

(** ** Arduino core: printing a number in a base

    [Print::printNumber]: the digits of [n], most significant first, digits
    above 9 as capital letters; the buffer holds [8 * sizeof(long)] digits. *)
Definition digit_char (c : Z) : ascii :=
  if c <? 10 then ascii_of_N (Z.to_N (c + 48)) else ascii_of_N (Z.to_N (c + 65 - 10)).

Fixpoint printNumber_loop (fuel : nat) (n base : Z) (str : string) : string :=
  match fuel with
  | O => str
  | S fuel' =>
      let c := n mod base in
      let n' := n / base in
      let str' := String (digit_char c) str in
      if n' =? 0 then str' else printNumber_loop fuel' n' base str'
  end.

Definition printNumber (n base : Z) : string :=
  printNumber_loop 32 n (if base <? 2 then 10 else base) "".

(** [Print::print(int n, int base)], through [print(long, int)]. *)
Definition print_int (n base : Z) : string :=
  if base =? 0 then String (ascii_of_N (Z.to_N (n mod 256))) ""
  else if base =? 10 then
    (if n <? 0 then ("-" ++ printNumber (- n) 10)%string else printNumber n 10)
  else printNumber (n mod 2 ^ 32) base.

Definition HEX : Z := 16.

(** ** The sketch *)

Section Sketch.

Context {HW : Type} {rfid : MFRC522 HW}.

(** The state of the program: the global [locked], the member [rfid.uid],
    the chip behind [rfid], and the journal. *)
Record World : Type := mkWorld {
  locked : bool;
  rfid_uid : Uid;
  chip : HW;
  journal : list Action
}.

Definition M (A : Type) : Type := World -> A * World.

Definition ret {A : Type} (a : A) : M A := fun w => (a, w).

Definition bind {A B : Type} (m : M A) (k : A -> M B) : M B :=
  fun w => let r := m w in k (fst r) (snd r).

Notation "x <- m ;; k" := (bind m (fun x => k))
  (at level 61, m at next level, right associativity).
Notation "m ;; k" := (bind m (fun _ => k))
  (at level 61, right associativity).

Definition log (a : Action) : M unit :=
  fun w => (tt, mkWorld (locked w) (rfid_uid w) (chip w) (journal w ++ [a])).

Definition get_locked : M bool := fun w => (locked w, w).

Definition set_locked (b : bool) : M unit :=
  fun w => (tt, mkWorld b (rfid_uid w) (chip w) (journal w)).

Definition get_uid : M Uid := fun w => (rfid_uid w, w).

(** [rfid.uid.size = n;] *)
Definition set_uid_size (n : Z) : M unit :=
  fun w => (tt, mkWorld (locked w)
                  (mkUid n (uidByte (rfid_uid w)) (sak (rfid_uid w)))
                  (chip w) (journal w)).

Definition on_chip {A : Type} (f : HW -> A * HW) : M A :=
  fun w => let r := f (chip w) in
           (fst r, mkWorld (locked w) (rfid_uid w) (snd r) (journal w)).

Definition rfid_PCD_Init : M unit :=
  log Call_PCD_Init ;; on_chip (fun hw => (tt, PCD_Init hw)).

Definition rfid_PCD_WriteRegister (reg : PCD_Register) (value : Z) : M unit :=
  log (Call_PCD_WriteRegister reg value) ;;
  on_chip (fun hw => (tt, PCD_WriteRegister reg value hw)).

Definition rfid_PICC_WakeupA (bufferSize : Z) : M StatusCode :=
  log (Call_PICC_WakeupA bufferSize) ;; on_chip (PICC_WakeupA bufferSize).

(** [rfid.PICC_Select(&rfid.uid, validBits)]: the parameter is a [byte]. *)
Definition rfid_PICC_Select (validBits : Z) : M StatusCode :=
  fun w =>
    let r := PICC_Select (rfid_uid w) (to_byte validBits) (chip w) in
    (fst (fst r),
     mkWorld (locked w) (snd (fst r)) (snd r)
       (journal w ++ [Call_PICC_Select (rfid_uid w) (to_byte validBits)])).

Definition rfid_PICC_HaltA : M StatusCode :=
  log Call_PICC_HaltA ;; on_chip PICC_HaltA.

Definition Serial_print (s : string) : M unit := log (Print s).

Definition Serial_println : M unit := log Println.

Definition Serial_println_text (s : string) : M unit :=
  Serial_print s ;; Serial_println.

(** [buffer[i]]; the sketch only reads below [bufferSize], and an index past
    the array has no meaning in the program: it reads as 0 here. *)
Definition buffer_at (buffer : list Z) (i : Z) : Z :=
  nth (Z.to_nat i) buffer 0.

(** The [for] loop of [printHex], with its [byte] counter [i]. *)
Fixpoint printHex_loop (fuel : nat) (buffer : list Z) (bufferSize i : Z) : M unit :=
  match fuel with
  | O => ret tt
  | S fuel' =>
      if i <? bufferSize then
        Serial_print (print_int (Z.land (Z.shiftr (buffer_at buffer i) 4) 15) HEX) ;;
        Serial_print (print_int (Z.land (buffer_at buffer i) 15) HEX) ;;
        Serial_print " " ;;
        printHex_loop fuel' buffer bufferSize (to_byte (i + 1))
      else ret tt
  end.

(** [void printHex(byte *buffer, byte bufferSize)]: at most 255 rounds. *)
Definition printHex (buffer : list Z) (bufferSize : Z) : M unit :=
  printHex_loop 256 buffer (to_byte bufferSize) 0.

(** [bool PICC_IsAnyCardPresent()]. *)
Definition PICC_IsAnyCardPresent : M bool :=
  let bufferSize := 2 in
  rfid_PCD_WriteRegister TxModeReg 0 ;;
  rfid_PCD_WriteRegister RxModeReg 0 ;;
  rfid_PCD_WriteRegister ModWidthReg 0x26 ;;
  result <- rfid_PICC_WakeupA bufferSize ;;
  ret (StatusCode_eqb result STATUS_OK || StatusCode_eqb result STATUS_COLLISION).

(** [void setup()]. *)
Definition setup : M unit :=
  log (Serial_begin 9600) ;;
  log SPI_begin ;;
  rfid_PCD_Init ;;
  log (Call_delay 4) ;;
  set_uid_size 0 ;;
  Serial_println_text "This code scan the MIFARE Classsic NUID and reports removal.".

(** [void loop()].  The early [return] is the first branch; the three
    conditions of the [if]/[else if] chain read [locked] with no write in
    between, so it is read once. *)
Definition loop : M unit :=
  cardPresent <- PICC_IsAnyCardPresent ;;
  l0 <- get_locked ;;
  if negb l0 && negb cardPresent then ret tt
  else
    u <- get_uid ;;
    result <- rfid_PICC_Select (8 * size u) ;;
    l <- get_locked ;;
    (if negb l && StatusCode_eqb result STATUS_OK then
       set_locked true ;;
       Serial_print "locked! NUID tag: " ;;
       u' <- get_uid ;;
       printHex (uidByte u') (size u') ;;
       Serial_println
     else if l && negb (StatusCode_eqb result STATUS_OK) then
       set_locked false ;;
       set_uid_size 0 ;;
       Serial_print "unlocked! Reason for unlocking: " ;;
       Serial_println_text (GetStatusCodeName result)
     else if negb l && negb (StatusCode_eqb result STATUS_OK) then
       set_uid_size 0
     else ret tt) ;;
    rfid_PICC_HaltA ;;
    ret tt.

(** The program before [setup]: [bool locked = false;] and an arbitrary chip
    and [uid]. *)
Definition power_on (u : Uid) (hw : HW) : World := mkWorld false u hw [].

(** One tick, and [n] ticks. *)
Definition tick (w : World) : World := snd (loop w).

Fixpoint ticks (n : nat) (w : World) : World :=
  match n with
  | O => w
  | S n' => ticks n' (tick w)
  end.

End Sketch.

Arguments World : clear implicits.
Arguments M : clear implicits.

Notation "x <- m ;; k" := (bind m (fun x => k))
  (at level 61, m at next level, right associativity).
Notation "m ;; k" := (bind m (fun _ => k))
  (at level 61, right associativity).

(** ** A scripted driver

    A driver that answers from a script: one wake-up result and one selection
    outcome (status, and the [Uid] left behind the pointer) per call, in
    order.  A script that has run out answers with a timeout and leaves the
    [Uid] as it was.  The status names are those of the MFRC522 library. *)

Record Script : Type := mkScript {
  wakeups : list StatusCode;
  selects : list (StatusCode * Uid)
}.

Definition script_WakeupA (bufferSize : Z) (s : Script) : StatusCode * Script :=
  match wakeups s with
  | [] => (STATUS_TIMEOUT, s)
  | r :: rest => (r, mkScript rest (selects s))
  end.

Definition script_Select (u : Uid) (validBits : Z) (s : Script)
  : StatusCode * Uid * Script :=
  match selects s with
  | [] => (STATUS_TIMEOUT, u, s)
  | (r, u') :: rest => (r, u', mkScript (wakeups s) rest)
  end.

Definition library_StatusCodeName (code : StatusCode) : string :=
  match code with
  | STATUS_OK => "Success."
  | STATUS_ERROR => "Error in communication."
  | STATUS_COLLISION => "Collission detected."
  | STATUS_TIMEOUT => "Timeout in communication."
  | STATUS_NO_ROOM => "A buffer is not big enough."
  | STATUS_INTERNAL_ERROR => "Internal error in the code. Should not happen."
  | STATUS_INVALID => "Invalid argument."
  | STATUS_CRC_WRONG => "The CRC_A does not match."
  | STATUS_MIFARE_NACK => "A MIFARE PICC responded with NAK."
  end.

#[local] Instance scripted : MFRC522 Script := {|
  PCD_Init := fun s => s;
  PCD_WriteRegister := fun _ _ s => s;
  PICC_WakeupA := script_WakeupA;
  PICC_Select := script_Select;
  PICC_HaltA := fun s => (STATUS_OK, s);
  GetStatusCodeName := library_StatusCodeName
|}.

(** The card of the specification's scenarios. *)
Definition card_04A23B9C : Uid := mkUid 4 [4; 162; 59; 156; 0; 0; 0; 0; 0; 0] 8.

Definition blank_uid : Uid := mkUid 0 [0; 0; 0; 0; 0; 0; 0; 0; 0; 0] 0.

(** Worlds for the scenarios of the specification, on the scripted driver. *)

(** Unlocked, and nothing answers the wake-up. *)
Definition world_idle : World Script :=
  mkWorld false blank_uid (mkScript [STATUS_TIMEOUT] []) [].

(** Unlocked, a card answers the wake-up and is selected. *)
Definition world_card_arrives : World Script :=
  mkWorld false blank_uid
    (mkScript [STATUS_OK] [(STATUS_OK, card_04A23B9C)]) [].

(** Locked on the card, which has left the field. *)
Definition world_card_removed : World Script :=
  mkWorld true card_04A23B9C
    (mkScript [STATUS_TIMEOUT] [(STATUS_TIMEOUT, card_04A23B9C)]) [].

(** Locked on the card, which stays, while a second card answers the wake-up
    too (a collision), for two ticks. *)
Definition world_second_card : World Script :=
  mkWorld true card_04A23B9C
    (mkScript [STATUS_COLLISION; STATUS_COLLISION]
       [(STATUS_OK, card_04A23B9C); (STATUS_OK, card_04A23B9C)]) [].

(** Unlocked, a card answers the wake-up, and the selection fails on its
    checksum after writing into the [Uid]. *)
Definition world_crc_error : World Script :=
  mkWorld false blank_uid
    (mkScript [STATUS_OK]
       [(STATUS_CRC_WRONG, mkUid 4 [4; 162; 59; 0; 0; 0; 0; 0; 0; 0] 0)]) [].

(** ** What a tick does, read off the code

    Names for the pieces of one tick: the calls of the presence probe, the
    chip after them, what the wake-up and the selection answer, and the
    journal entries a tick adds. *)

Section Observations.

Context {HW : Type} {rfid : MFRC522 HW}.

Definition probe_actions : list Action :=
  [Call_PCD_WriteRegister TxModeReg 0;
   Call_PCD_WriteRegister RxModeReg 0;
   Call_PCD_WriteRegister ModWidthReg 38;
   Call_PICC_WakeupA 2].

(** The chip after the three register writes of the probe. *)
Definition chip_reset (hw : HW) : HW :=
  PCD_WriteRegister ModWidthReg 38
    (PCD_WriteRegister RxModeReg 0 (PCD_WriteRegister TxModeReg 0 hw)).

(** The status the wake-up of this tick returns. *)
Definition wakeup_result (w : World HW) : StatusCode :=
  fst (PICC_WakeupA 2 (chip_reset (chip w))).

(** The world after the probe of this tick. *)
Definition after_probe (w : World HW) : World HW :=
  mkWorld (locked w) (rfid_uid w)
    (snd (PICC_WakeupA 2 (chip_reset (chip w))))
    (journal w ++ probe_actions).

(** What the probe of this tick reports. *)
Definition cardPresent (w : World HW) : bool := fst (PICC_IsAnyCardPresent w).

(** The tick reaches the selection attempt. *)
Definition selects_card (w : World HW) : bool :=
  negb (negb (locked w) && negb (cardPresent w)).

(** What the driver answers to the selection attempt of this tick. *)
Definition select_reply (w : World HW) : StatusCode * Uid * HW :=
  PICC_Select (rfid_uid w) (to_byte (8 * size (rfid_uid w))) (chip (after_probe w)).

Definition select_result (w : World HW) : StatusCode := fst (fst (select_reply w)).

Definition select_uid (w : World HW) : Uid := snd (fst (select_reply w)).

(** The journal entry of the selection attempt of this tick. *)
Definition select_action (w : World HW) : Action :=
  Call_PICC_Select (rfid_uid w) (to_byte (8 * size (rfid_uid w))).

(** The chip once the tick has halted the card it addressed. *)
Definition chip_halted (w : World HW) : HW :=
  snd (PICC_HaltA (snd (select_reply w))).

(** [rfid.uid] with its length set to 0. *)
Definition cleared (u : Uid) : Uid := mkUid 0 (uidByte u) (sak u).


(** The world with more entries in its journal. *)
Definition journal_add (w : World HW) (acts : list Action) : World HW :=
  mkWorld (locked w) (rfid_uid w) (chip w) (journal w ++ acts).

(** The journal entries written between two worlds of one run. *)
Definition since (w w' : World HW) : list Action :=
  skipn (List.length (journal w)) (journal w').

End Observations.

(** Rendering per the specification: a byte as two hexadecimal digits, taken
    from the digit table, and an identifier as its bytes, each followed by a
    space. *)
Definition hex_digit (d : Z) : ascii :=
  match String.get (Z.to_nat d) "0123456789ABCDEF" with
  | Some c => c
  | None => "?"%char
  end.

Definition two_hex_digits (b : Z) : string :=
  String (hex_digit ((b / 16) mod 16)) (String (hex_digit (b mod 16)) "").

(** The value of a hexadecimal digit: its place in the digit table. *)
Fixpoint index_in (c : ascii) (table : string) : Z :=
  match table with
  | EmptyString => 0
  | String d rest => if Ascii.eqb c d then 0 else 1 + index_in c rest
  end.

Definition hex_digit_value (c : ascii) : Z := index_in c "0123456789ABCDEF".

(** The number two hexadecimal digits denote. *)
Definition hex_value (s : string) : option Z :=
  match s with
  | String hi (String lo EmptyString) =>
      Some (16 * hex_digit_value hi + hex_digit_value lo)
  | _ => None
  end.

Fixpoint hex_dump (bytes : list Z) : string :=
  match bytes with
  | [] => ""
  | b :: rest => (two_hex_digits b ++ " " ++ hex_dump rest)%string
  end.

(** The calls [printHex] makes for a list of bytes. *)
Fixpoint printHex_actions (bytes : list Z) : list Action :=
  match bytes with
  | [] => []
  | b :: rest =>
      Print (String (hex_digit ((b / 16) mod 16)) "")
      :: Print (String (hex_digit (b mod 16)) "")
      :: Print " " :: printHex_actions rest
  end.

Definition is_init (a : Action) : bool :=
  match a with Call_PCD_Init => true | _ => false end.

(** What [setup] writes to the journal. *)
Definition setup_actions : list Action :=
  [Serial_begin 9600; SPI_begin; Call_PCD_Init; Call_delay 4;
   Print "This code scan the MIFARE Classsic NUID and reports removal.";
   Println].

(** Counting the journal entries of one kind. *)
Definition count (f : Action -> bool) (j : list Action) : nat :=
  List.length (filter f j).

(** ** A driver over a field of cards

    A second driver for running the sketch: the chip state is the list of
    cards in the field, each with a four-byte identifier.  The wake-up times
    out on an empty field, succeeds on one card and collides on several.  A
    selection with no known bits takes the first card; one with known bits
    succeeds when a card in the field has the bytes asked for.  Every
    successful selection leaves that card's [Uid] (length 4) behind the
    pointer; a failed one leaves the [Uid] alone. *)

Record Card : Type := mkCard { c0 : Z; c1 : Z; c2 : Z; c3 : Z }.

Definition uid_of_card (c : Card) : Uid :=
  mkUid 4 [c0 c; c1 c; c2 c; c3 c; 0; 0; 0; 0; 0; 0] 8.

Definition card_matches (u : Uid) (c : Card) : bool :=
  if list_eq_dec Z.eq_dec (identifier (uid_of_card c)) (identifier u)
  then true else false.

Definition field_WakeupA (bufferSize : Z) (f : list Card) : StatusCode * list Card :=
  match f with
  | [] => (STATUS_TIMEOUT, f)
  | [_] => (STATUS_OK, f)
  | _ => (STATUS_COLLISION, f)
  end.

Definition field_Select (u : Uid) (validBits : Z) (f : list Card)
  : StatusCode * Uid * list Card :=
  match (if validBits =? 0 then hd_error f else find (card_matches u) f) with
  | Some c => (STATUS_OK, uid_of_card c, f)
  | None => (STATUS_TIMEOUT, u, f)
  end.

#[local] Instance field_driver : MFRC522 (list Card) := {|
  PCD_Init := fun f => f;
  PCD_WriteRegister := fun _ _ f => f;
  PICC_WakeupA := field_WakeupA;
  PICC_Select := field_Select;
  PICC_HaltA := fun f => (STATUS_OK, f);
  GetStatusCodeName := library_StatusCodeName
|}.

Definition card_A : Card := mkCard 4 162 59 156.

Definition card_B : Card := mkCard 222 173 190 239.


(** A card arrives, leaves, and another one arrives: three ticks of the
    scripted driver. *)
Definition script_takeover : Script :=
  mkScript [STATUS_OK; STATUS_TIMEOUT; STATUS_OK]
    [(STATUS_OK, card_04A23B9C);
     (STATUS_TIMEOUT, card_04A23B9C);
     (STATUS_OK, uid_of_card card_B)].

(** ** Properties *)

Section Properties.

Context {HW : Type} {rfid : MFRC522 HW}.

Implicit Types (w : World HW) (u : Uid).

Lemma probe_eq w :
  PICC_IsAnyCardPresent w =
  (StatusCode_eqb (wakeup_result w) STATUS_OK
   || StatusCode_eqb (wakeup_result w) STATUS_COLLISION, after_probe w).
Proof.
  unfold PICC_IsAnyCardPresent, after_probe, wakeup_result, chip_reset, probe_actions.
  cbv [bind ret rfid_PCD_WriteRegister rfid_PICC_WakeupA log on_chip fst snd
       locked rfid_uid chip journal].
  repeat rewrite <- app_assoc. reflexivity.
Qed.

(** *** Printing *)

Lemma nibble_cases (v : Z) :
  0 <= v < 16 -> exists n : nat, (n < 16)%nat /\ v = Z.of_nat n.
Proof. intros H. exists (Z.to_nat v). lia. Qed.

Lemma print_int_nibble (v : Z) :
  0 <= v < 16 -> print_int v HEX = String (hex_digit v) "".
Proof.
  intros H. destruct (nibble_cases v H) as (n & Hn & ->).
  do 16 (destruct n as [|n]; [reflexivity|]). lia.
Qed.

Lemma hex_digit_value_digit (v : Z) :
  0 <= v < 16 -> hex_digit_value (hex_digit v) = v.
Proof.
  intros H. destruct (nibble_cases v H) as (n & Hn & ->).
  do 16 (destruct n as [|n]; [reflexivity|]). lia.
Qed.

(** The two digits printed for a byte denote that byte. *)
Lemma hex_value_two_hex_digits (b : Z) :
  0 <= b < 256 -> hex_value (two_hex_digits b) = Some b.
Proof.
  intros H. unfold two_hex_digits, hex_value.
  rewrite !hex_digit_value_digit by (apply Z.mod_pos_bound; lia).
  f_equal. rewrite (Z.mod_small (b / 16)) by (split; [apply Z.div_pos|apply Z.div_lt_upper_bound]; lia).
  pose proof (Z.div_mod b 16). lia.
Qed.

Lemma high_nibble (b : Z) : Z.land (Z.shiftr b 4) 15 = (b / 16) mod 16.
Proof.
  change 15 with (Z.ones 4). rewrite Z.land_ones by lia.
  rewrite Z.shiftr_div_pow2 by lia. reflexivity.
Qed.

Lemma low_nibble (b : Z) : Z.land b 15 = b mod 16.
Proof. change 15 with (Z.ones 4). rewrite Z.land_ones by lia. reflexivity. Qed.

Lemma firstn_skipn_cons (l : list Z) (i k : nat) :
  (i < List.length l)%nat ->
  firstn (S k) (skipn i l) = nth i l 0 :: firstn k (skipn (S i) l).
Proof.
  revert i. induction l as [|a l IH]; intros i Hi; simpl in Hi; [lia|].
  destruct i as [|i]; [reflexivity|].
  change (skipn (S i) (a :: l)) with (skipn i l).
  change (skipn (S (S i)) (a :: l)) with (skipn (S i) l).
  change (nth (S i) (a :: l) 0) with (nth i l 0).
  apply IH. lia.
Qed.

Lemma journal_add_nil w : journal_add w [] = w.
Proof. destruct w. unfold journal_add. simpl. rewrite app_nil_r. reflexivity. Qed.

Lemma journal_add_add w a b :
  journal_add (journal_add w a) b = journal_add w (a ++ b).
Proof. unfold journal_add. simpl. rewrite app_assoc. reflexivity. Qed.

(** The loop leaves through its test, never through the fuel: with [k] bytes
    left below [bufferSize] and more than [k] rounds of fuel it prints
    exactly those bytes. *)
Lemma printHex_loop_eq (fuel : nat) (buffer : list Z) (bufferSize : Z) :
  bufferSize < 256 ->
  bufferSize <= Z.of_nat (List.length buffer) ->
  forall (k : nat) (i : Z) w,
    0 <= i -> i + Z.of_nat k = bufferSize -> (k < fuel)%nat ->
    printHex_loop fuel buffer bufferSize i w =
    (tt, journal_add w
           (printHex_actions (firstn k (skipn (Z.to_nat i) buffer)))).
Proof.
  intros Hbyte Hlen. induction fuel as [|fuel IH]; intros k i w Hi Hk Hf; [lia|].
  cbn [printHex_loop]. destruct k as [|k].
  - replace (i <? bufferSize) with false by (symmetry; apply Z.ltb_ge; lia).
    unfold ret. cbn [firstn printHex_actions]. now rewrite journal_add_nil.
  - replace (i <? bufferSize) with true by (symmetry; apply Z.ltb_lt; lia).
    rewrite (firstn_skipn_cons buffer (Z.to_nat i) k) by lia.
    cbn [printHex_actions].
    unfold bind at 1 2 3. unfold Serial_print at 1 2 3. unfold log at 1 2 3.
    cbn [fst snd locked rfid_uid chip journal].
    assert (Hnext : to_byte (i + 1) = i + 1)
      by (unfold to_byte; apply Z.mod_small; lia).
    rewrite Hnext, (IH k (i + 1)) by lia.
    unfold buffer_at. rewrite high_nibble, low_nibble.
    rewrite !print_int_nibble by (apply Z.mod_pos_bound; lia).
    replace (Z.to_nat (i + 1)) with (S (Z.to_nat i)) by lia.
    unfold journal_add. cbn [locked rfid_uid chip journal].
    repeat rewrite <- app_assoc. reflexivity.
Qed.

Lemma printHex_eq (buffer : list Z) (bufferSize : Z) w :
  0 <= bufferSize < 256 ->
  bufferSize <= Z.of_nat (List.length buffer) ->
  printHex buffer bufferSize w =
  (tt, journal_add w (printHex_actions (firstn (Z.to_nat bufferSize) buffer))).
Proof.
  intros Hb Hlen. unfold printHex.
  assert (E : to_byte bufferSize = bufferSize)
    by (unfold to_byte; apply Z.mod_small; lia).
  rewrite E.
  rewrite (printHex_loop_eq 256 buffer bufferSize) with (k := Z.to_nat bufferSize);
    try lia.
  reflexivity.
Qed.

Lemma string_app_assoc (a b c : string) :
  ((a ++ b) ++ c)%string = (a ++ (b ++ c))%string.
Proof. induction a as [|x a IH]; [reflexivity|]. simpl. now rewrite IH. Qed.

Lemma serial_text_app (a b : list Action) :
  serial_text (a ++ b) = (serial_text a ++ serial_text b)%string.
Proof.
  induction a as [|x a IH]; [reflexivity|].
  destruct x; cbn [app serial_text]; rewrite ?IH; try reflexivity.
  now rewrite string_app_assoc.
Qed.

Lemma lines_emitted_app (a b : list Action) :
  lines_emitted (a ++ b) = (lines_emitted a + lines_emitted b)%nat.
Proof.
  induction a as [|x a IH]; [reflexivity|].
  destruct x; cbn [app lines_emitted]; rewrite ?IH; reflexivity.
Qed.

Lemma serial_text_printHex (bytes : list Z) :
  serial_text (printHex_actions bytes) = hex_dump bytes.
Proof.
  induction bytes as [|b rest IH]; [reflexivity|].
  cbn [printHex_actions serial_text hex_dump]. rewrite IH. reflexivity.
Qed.

Lemma lines_emitted_printHex (bytes : list Z) :
  lines_emitted (printHex_actions bytes) = 0%nat.
Proof. induction bytes as [|b rest IH]; [reflexivity|]. exact IH. Qed.

(** *** The five ways through a tick *)

Lemma cardPresent_eq w :
  cardPresent w =
  StatusCode_eqb (wakeup_result w) STATUS_OK
  || StatusCode_eqb (wakeup_result w) STATUS_COLLISION.
Proof. unfold cardPresent. now rewrite probe_eq. Qed.

Lemma loop_unfold w :
  loop w =
  (let p := PICC_IsAnyCardPresent w in
   if negb (locked w) && negb (fst p) then (tt, snd p)
   else
     let r := PICC_Select (rfid_uid w) (to_byte (8 * size (rfid_uid w)))
                (chip (snd p)) in
     let result := fst (fst r) in
     let w1 := mkWorld (locked w) (snd (fst r)) (snd r)
                 (journal (snd p) ++
                  [Call_PICC_Select (rfid_uid w) (to_byte (8 * size (rfid_uid w)))]) in
     let w2 :=
       snd ((if negb (locked w) && StatusCode_eqb result STATUS_OK then
               set_locked true ;;
               Serial_print "locked! NUID tag: " ;;
               u' <- get_uid ;;
               printHex (uidByte u') (size u') ;;
               Serial_println
             else if locked w && negb (StatusCode_eqb result STATUS_OK) then
               set_locked false ;;
               set_uid_size 0 ;;
               Serial_print "unlocked! Reason for unlocking: " ;;
               Serial_println_text (GetStatusCodeName result)
             else if negb (locked w) && negb (StatusCode_eqb result STATUS_OK) then
               set_uid_size 0
             else ret tt) w1) in
     (tt, mkWorld (locked w2) (rfid_uid w2) (snd (PICC_HaltA (chip w2)))
            (journal w2 ++ [Call_PICC_HaltA]))).
Proof.
  cbv zeta. unfold loop. unfold bind at 1 2. unfold get_locked at 1.
  cbn [fst snd].
  change (locked (snd (PICC_IsAnyCardPresent w))) with (locked w).
  destruct (negb (locked w) && negb (fst (PICC_IsAnyCardPresent w)));
    reflexivity.
Qed.

Lemma loop_early_exit w :
  locked w = false -> cardPresent w = false -> loop w = (tt, after_probe w).
Proof.
  intros Hl Hp. rewrite loop_unfold. cbv zeta.
  fold (cardPresent w). rewrite Hl, Hp. cbn [negb andb].
  now rewrite probe_eq.
Qed.

Lemma loop_select w :
  selects_card w = true ->
  loop w =
  (let w1 := mkWorld (locked w) (select_uid w) (snd (select_reply w))
               (journal w ++ probe_actions ++
                [Call_PICC_Select (rfid_uid w) (to_byte (8 * size (rfid_uid w)))]) in
   let result := select_result w in
   let w2 :=
     snd ((if negb (locked w) && StatusCode_eqb result STATUS_OK then
             set_locked true ;;
             Serial_print "locked! NUID tag: " ;;
             u' <- get_uid ;;
             printHex (uidByte u') (size u') ;;
             Serial_println
           else if locked w && negb (StatusCode_eqb result STATUS_OK) then
             set_locked false ;;
             set_uid_size 0 ;;
             Serial_print "unlocked! Reason for unlocking: " ;;
             Serial_println_text (GetStatusCodeName result)
           else if negb (locked w) && negb (StatusCode_eqb result STATUS_OK) then
             set_uid_size 0
           else ret tt) w1) in
   (tt, mkWorld (locked w2) (rfid_uid w2) (snd (PICC_HaltA (chip w2)))
          (journal w2 ++ [Call_PICC_HaltA]))).
Proof.
  intros Hs. unfold selects_card in Hs. apply negb_true_iff in Hs.
  rewrite loop_unfold. cbv zeta.
  fold (cardPresent w). rewrite Hs.
  unfold select_result, select_uid, select_reply.
  rewrite probe_eq. cbn [fst snd].
  change (journal (after_probe w)) with (journal w ++ probe_actions).
  rewrite <- app_assoc. reflexivity.
Qed.

Lemma StatusCode_eqb_eq (a b : StatusCode) : StatusCode_eqb a b = true <-> a = b.
Proof. destruct a, b; simpl; split; congruence. Qed.

Lemma StatusCode_eqb_neq (a b : StatusCode) : StatusCode_eqb a b = false <-> a <> b.
Proof. destruct a, b; simpl; split; congruence. Qed.

Lemma selects_when_locked w : locked w = true -> selects_card w = true.
Proof. intros H. unfold selects_card. now rewrite H. Qed.

Lemma selects_when_present w : cardPresent w = true -> selects_card w = true.
Proof. intros H. unfold selects_card. rewrite H. now destruct (locked w). Qed.

Lemma tick_early_exit w :
  locked w = false -> cardPresent w = false -> tick w = after_probe w.
Proof. intros Hl Hp. unfold tick. now rewrite loop_early_exit. Qed.

Lemma lock_branch_eq w :
  Uid_in_bounds (rfid_uid w) ->
  (set_locked true ;;
   Serial_print "locked! NUID tag: " ;;
   u' <- get_uid ;;
   printHex (uidByte u') (size u') ;;
   Serial_println) w =
  (tt, mkWorld true (rfid_uid w) (chip w)
         (journal w ++ [Print "locked! NUID tag: "] ++
          printHex_actions (identifier (rfid_uid w)) ++ [Println])).
Proof.
  intros [Hsz Hb].
  unfold bind, set_locked, Serial_print, get_uid, log.
  cbn [fst snd locked rfid_uid chip journal].
  rewrite printHex_eq by lia.
  unfold Serial_println, log, journal_add, identifier.
  cbn [fst snd locked rfid_uid chip journal].
  repeat rewrite <- app_assoc. reflexivity.
Qed.

Lemma tick_lock w :
  locked w = false -> cardPresent w = true ->
  select_result w = STATUS_OK -> Uid_in_bounds (select_uid w) ->
  tick w =
  mkWorld true (select_uid w) (chip_halted w)
    (journal w ++ probe_actions ++ [select_action w] ++
     [Print "locked! NUID tag: "] ++
     printHex_actions (identifier (select_uid w)) ++
     [Println; Call_PICC_HaltA]).
Proof.
  intros Hl Hp Hr [Hsz Hb]. unfold tick.
  rewrite loop_select by now apply selects_when_present.
  cbv zeta. rewrite Hl, Hr. cbn [negb andb StatusCode_eqb].
  rewrite lock_branch_eq by (split; assumption).
  cbn [fst snd locked rfid_uid chip journal].
  unfold chip_halted, select_action.
  repeat rewrite <- app_assoc. reflexivity.
Qed.

Lemma tick_unlock w :
  locked w = true -> select_result w <> STATUS_OK ->
  tick w =
  mkWorld false (cleared (select_uid w)) (chip_halted w)
    (journal w ++ probe_actions ++ [select_action w] ++
     [Print "unlocked! Reason for unlocking: ";
      Print (GetStatusCodeName (select_result w)); Println; Call_PICC_HaltA]).
Proof.
  intros Hl Hr. apply StatusCode_eqb_neq in Hr. unfold tick.
  rewrite loop_select by now apply selects_when_locked.
  cbv zeta. rewrite Hl, Hr. cbn [negb andb snd].
  unfold Serial_println_text, Serial_println, Serial_print, bind, set_locked,
    set_uid_size, log.
  cbn [fst snd locked rfid_uid chip journal].
  unfold chip_halted, select_action, cleared.
  repeat rewrite <- app_assoc. reflexivity.
Qed.

Lemma tick_clear w :
  locked w = false -> cardPresent w = true -> select_result w <> STATUS_OK ->
  tick w =
  mkWorld false (cleared (select_uid w)) (chip_halted w)
    (journal w ++ probe_actions ++ [select_action w] ++ [Call_PICC_HaltA]).
Proof.
  intros Hl Hp Hr. apply StatusCode_eqb_neq in Hr. unfold tick.
  rewrite loop_select by now apply selects_when_present.
  cbv zeta. rewrite Hl, Hr. cbn [negb andb snd].
  unfold set_uid_size. cbn [fst snd locked rfid_uid chip journal].
  unfold chip_halted, select_action, cleared.
  repeat rewrite <- app_assoc. reflexivity.
Qed.

Lemma tick_keep w :
  locked w = true -> select_result w = STATUS_OK ->
  tick w =
  mkWorld true (select_uid w) (chip_halted w)
    (journal w ++ probe_actions ++ [select_action w] ++ [Call_PICC_HaltA]).
Proof.
  intros Hl Hr. unfold tick.
  rewrite loop_select by now apply selects_when_locked.
  cbv zeta. rewrite Hl, Hr. cbn [negb andb StatusCode_eqb snd].
  unfold ret. cbn [fst snd locked rfid_uid chip journal].
  unfold chip_halted, select_action.
  repeat rewrite <- app_assoc. reflexivity.
Qed.

(** *** The journal of a tick, whatever the driver hands back *)

Lemma since_app w w' (l : list Action) :
  journal w' = journal w ++ l -> since w w' = l.
Proof.
  intros E. unfold since. rewrite E. clear E.
  induction (journal w) as [|a j IH]; [reflexivity|exact IH].
Qed.

(** [printHex] only prints: it leaves [locked], [rfid.uid] and the chip
    alone and adds nothing but [Print] entries, for any buffer and size. *)
Lemma printHex_loop_prints (fuel : nat) (buffer : list Z) (bufferSize : Z) :
  forall (i : Z) w,
    exists l : list Action,
      printHex_loop fuel buffer bufferSize i w = (tt, journal_add w l)
      /\ forallb is_print l = true.
Proof.
  induction fuel as [|fuel IH]; intros i w; cbn [printHex_loop].
  - exists []. now rewrite journal_add_nil.
  - destruct (i <? bufferSize).
    + unfold bind at 1 2 3. unfold Serial_print at 1 2 3. unfold log at 1 2 3.
      cbn [fst snd locked rfid_uid chip journal].
      match goal with
      | |- context [printHex_loop fuel buffer bufferSize ?j ?w1] =>
          destruct (IH j w1) as (l & -> & Hl)
      end.
      eexists (_ :: _ :: _ :: l). split.
      * unfold journal_add. cbn [locked rfid_uid chip journal].
        repeat rewrite <- app_assoc. reflexivity.
      * exact Hl.
    + exists []. unfold ret. now rewrite journal_add_nil.
Qed.

Lemma printHex_prints (buffer : list Z) (bufferSize : Z) w :
  exists l : list Action,
    printHex buffer bufferSize w = (tt, journal_add w l)
    /\ forallb is_print l = true.
Proof. apply printHex_loop_prints. Qed.

Lemma tick_lock_any w :
  locked w = false -> cardPresent w = true -> select_result w = STATUS_OK ->
  exists l : list Action,
    forallb is_print l = true /\
    tick w =
    mkWorld true (select_uid w) (chip_halted w)
      (journal w ++ probe_actions ++ [select_action w] ++
       [Print "locked! NUID tag: "] ++ l ++ [Println; Call_PICC_HaltA]).
Proof.
  intros Hl Hp Hr. unfold tick.
  rewrite loop_select by now apply selects_when_present.
  cbv zeta. rewrite Hl, Hr. cbn [negb andb StatusCode_eqb].
  unfold bind, set_locked, Serial_print, get_uid, log.
  cbn [fst snd locked rfid_uid chip journal].
  match goal with
  | |- context [printHex ?b ?n ?w1] =>
      destruct (printHex_prints b n w1) as (l & -> & Hprints)
  end.
  exists l. split; [exact Hprints|].
  unfold Serial_println, log, journal_add.
  cbn [fst snd locked rfid_uid chip journal].
  unfold chip_halted, select_action.
  repeat rewrite <- app_assoc. reflexivity.
Qed.

Lemma select_result_dec w :
  {select_result w = STATUS_OK} + {select_result w <> STATUS_OK}.
Proof. destruct (select_result w); (now left) || (now right). Qed.

(** After a tick that reached the selection attempt the lock state is the
    outcome of that attempt, and the length is cleared unless it succeeded. *)
Lemma tick_state_select w :
  selects_card w = true ->
  locked (tick w) = StatusCode_eqb (select_result w) STATUS_OK /\
  rfid_uid (tick w) =
    (if StatusCode_eqb (select_result w) STATUS_OK then select_uid w
     else cleared (select_uid w)).
Proof.
  intros Hs. unfold selects_card in Hs. apply negb_true_iff in Hs.
  destruct (select_result_dec w) as [Hr|Hr].
  - rewrite Hr. cbn [StatusCode_eqb]. destruct (locked w) eqn:Hl.
    + now rewrite tick_keep.
    + cbn [negb andb] in Hs. apply negb_false_iff in Hs.
      destruct (tick_lock_any w Hl Hs Hr) as (l & _ & ->). now split.
  - pose proof Hr as Hr'. apply StatusCode_eqb_neq in Hr'. rewrite Hr'.
    destruct (locked w) eqn:Hl.
    + now rewrite tick_unlock.
    + cbn [negb andb] in Hs. apply negb_false_iff in Hs.
      now rewrite tick_clear.
Qed.

Lemma tick_state_idle w :
  selects_card w = false ->
  locked (tick w) = locked w /\ rfid_uid (tick w) = rfid_uid w.
Proof.
  intros Hs. unfold selects_card in Hs. apply negb_false_iff in Hs.
  apply andb_true_iff in Hs. destruct Hs as [Hl Hp].
  apply negb_true_iff in Hl, Hp. now rewrite tick_early_exit.
Qed.

Lemma setup_state u (hw : HW) :
  locked (snd (setup (power_on u hw))) = false /\
  size (rfid_uid (snd (setup (power_on u hw)))) = 0.
Proof. split; reflexivity. Qed.

(** One tick keeps "a length above 0 only when locked". *)
Lemma tick_keeps_invariant w :
  (0 < size (rfid_uid w) -> locked w = true) ->
  0 < size (rfid_uid (tick w)) -> locked (tick w) = true.
Proof.
  intros Inv. destruct (selects_card w) eqn:Hs.
  - destruct (tick_state_select w Hs) as [-> ->].
    destruct (StatusCode_eqb (select_result w) STATUS_OK); [reflexivity|].
    cbn [cleared size]. lia.
  - destruct (tick_state_idle w Hs) as [-> ->]. exact Inv.
Qed.

Lemma ticks_keep_invariant (n : nat) w :
  (0 < size (rfid_uid w) -> locked w = true) ->
  0 < size (rfid_uid (ticks n w)) -> locked (ticks n w) = true.
Proof.
  revert w. induction n as [|n IH]; intros w Inv; cbn [ticks]; [exact Inv|].
  apply IH. now apply tick_keeps_invariant.
Qed.

(** C1: from the state [setup] establishes (unlocked, length 0), after any
    number of ticks the length of the identifier is above 0 only if the
    sketch is locked. *)
Theorem C1_identifier_only_when_locked (u : Uid) (hw : HW) (n : nat) :
  0 < size (rfid_uid (ticks n (snd (setup (power_on u hw))))) ->
  locked (ticks n (snd (setup (power_on u hw)))) = true.
Proof.
  apply ticks_keep_invariant.
  destruct (setup_state u hw) as [_ E]. rewrite E. lia.
Qed.

(** *** The transitions *)

Lemma serial_text_probe (rest : list Action) :
  serial_text (probe_actions ++ rest) = serial_text rest.
Proof. reflexivity. Qed.

Lemma lines_emitted_probe (rest : list Action) :
  lines_emitted (probe_actions ++ rest) = lines_emitted rest.
Proof. reflexivity. Qed.

(** C2: a tick entered locked whose selection attempt returns a status other
    than Ok unlocks, clears the identifier to length 0 and emits one line:
    "unlocked! Reason for unlocking: " followed by the driver's name for that
    status. *)
Theorem C2_failed_selection_unlocks w :
  locked w = true -> select_result w <> STATUS_OK ->
  locked (tick w) = false /\
  size (rfid_uid (tick w)) = 0 /\
  serial_text (since w (tick w)) =
    ("unlocked! Reason for unlocking: "
     ++ GetStatusCodeName (select_result w) ++ CRLF)%string /\
  lines_emitted (since w (tick w)) = 1%nat.
Proof.
  intros Hl Hr. rewrite (tick_unlock w Hl Hr).
  erewrite since_app by reflexivity.
  rewrite serial_text_probe, lines_emitted_probe.
  repeat split.
Qed.

(** C3: a tick entered unlocked, with a card detected and the selection
    returning Ok with identifier bytes [u], locks, keeps [u] as the
    identifier and emits one line: "locked! NUID tag: " followed by every
    byte of [u] as two hexadecimal digits and a space. *)
Theorem C3_selection_locks w :
  locked w = false -> cardPresent w = true ->
  select_result w = STATUS_OK -> Uid_in_bounds (select_uid w) ->
  locked (tick w) = true /\
  rfid_uid (tick w) = select_uid w /\
  serial_text (since w (tick w)) =
    ("locked! NUID tag: " ++ hex_dump (identifier (select_uid w)) ++ CRLF)%string /\
  lines_emitted (since w (tick w)) = 1%nat.
Proof.
  intros Hl Hp Hr Hb. rewrite (tick_lock w Hl Hp Hr Hb).
  erewrite since_app by reflexivity.
  rewrite serial_text_probe, lines_emitted_probe.
  cbn [app select_action serial_text lines_emitted].
  rewrite serial_text_app, lines_emitted_app.
  rewrite serial_text_printHex, lines_emitted_printHex.
  repeat split.
Qed.

(** C6: a tick entered unlocked that attempts a selection and gets a status
    other than Ok stays unlocked, clears the identifier to length 0 whatever
    the driver left in it, and emits nothing. *)
Theorem C6_failed_selection_clears w :
  locked w = false -> cardPresent w = true -> select_result w <> STATUS_OK ->
  In (select_action w) (since w (tick w)) /\
  locked (tick w) = false /\
  rfid_uid (tick w) = cleared (select_uid w) /\
  size (rfid_uid (tick w)) = 0 /\
  serial_text (since w (tick w)) = "" /\
  lines_emitted (since w (tick w)) = 0%nat.
Proof.
  intros Hl Hp Hr. rewrite (tick_clear w Hl Hp Hr).
  erewrite since_app by reflexivity.
  repeat split. apply in_or_app. right. now left.
Qed.

(** C7: a tick entered unlocked on which the probe reports no card makes the
    calls of the probe and nothing else: no selection attempt, no halt, no
    output, and the lock state and the identifier stay as they were. *)
Theorem C7_early_exit w :
  locked w = false -> cardPresent w = false ->
  since w (tick w) = probe_actions /\
  existsb is_select (since w (tick w)) = false /\
  existsb is_halt (since w (tick w)) = false /\
  serial_text (since w (tick w)) = "" /\
  lines_emitted (since w (tick w)) = 0%nat /\
  locked (tick w) = false /\
  rfid_uid (tick w) = rfid_uid w.
Proof.
  intros Hl Hp. rewrite (tick_early_exit w Hl Hp).
  erewrite since_app by reflexivity.
  repeat split. exact Hl.
Qed.

(** *** The shape of the journal of a tick *)

Lemma prints_are_output (l : list Action) :
  forallb is_print l = true -> forallb is_output l = true.
Proof.
  induction l as [|a l IH]; [reflexivity|]. cbn [forallb].
  intros H. apply andb_true_iff in H. destruct H as [Ha Hl].
  rewrite (IH Hl). now destruct a.
Qed.

Lemma forallb_app_true (f : Action -> bool) (a b : list Action) :
  forallb f a = true -> forallb f b = true -> forallb f (a ++ b) = true.
Proof. intros Ha Hb. rewrite forallb_app, Ha, Hb. reflexivity. Qed.

(** Every tick starts with the probe.  A tick that reaches the selection
    attempt goes on with the selection, then the output of the transition,
    then the halt; the other ticks stop after the probe. *)
Lemma tick_journal_shape w :
  exists mid : list Action,
    forallb is_output mid = true /\
    since w (tick w) =
      if selects_card w
      then probe_actions ++ select_action w :: mid ++ [Call_PICC_HaltA]
      else probe_actions.
Proof.
  destruct (selects_card w) eqn:Hs; unfold selects_card in Hs.
  - apply negb_true_iff in Hs.
    destruct (select_result_dec w) as [Hr|Hr]; destruct (locked w) eqn:Hl;
      cbn [negb andb] in Hs; try apply negb_false_iff in Hs.
    + exists []. split; [reflexivity|].
      rewrite (tick_keep w Hl Hr). now erewrite since_app by reflexivity.
    + destruct (tick_lock_any w Hl Hs Hr) as (l & Hprints & ->).
      exists (Print "locked! NUID tag: " :: l ++ [Println]). split.
      * cbn [forallb is_output andb]. apply forallb_app_true;
          [now apply prints_are_output|reflexivity].
      * erewrite since_app by reflexivity.
        cbn [app]. now rewrite <- app_assoc.
    + exists [Print "unlocked! Reason for unlocking: ";
              Print (GetStatusCodeName (select_result w)); Println].
      split; [reflexivity|].
      rewrite (tick_unlock w Hl Hr). now erewrite since_app by reflexivity.
    + exists []. split; [reflexivity|].
      rewrite (tick_clear w Hl Hs Hr). now erewrite since_app by reflexivity.
  - apply negb_false_iff, andb_true_iff in Hs. destruct Hs as [Hl Hp].
    apply negb_true_iff in Hl, Hp. exists []. split; [reflexivity|].
    rewrite (tick_early_exit w Hl Hp). now erewrite since_app by reflexivity.
Qed.

Lemma selects_card_eq w : selects_card w = locked w || cardPresent w.
Proof. unfold selects_card. now destruct (locked w), (cardPresent w). Qed.

Lemma output_not_select (l : list Action) :
  forallb is_output l = true -> filter is_select l = [].
Proof.
  induction l as [|a l IH]; [reflexivity|]. cbn [forallb filter].
  intros H. apply andb_true_iff in H. destruct H as [Ha Hl].
  rewrite (IH Hl). now destruct a.
Qed.

Lemma output_not_halt (l : list Action) :
  forallb is_output l = true -> forallb (fun a => negb (is_halt a)) l = true.
Proof.
  induction l as [|a l IH]; [reflexivity|]. cbn [forallb].
  intros H. apply andb_true_iff in H. destruct H as [Ha Hl].
  rewrite (IH Hl). now destruct a.
Qed.

(** C4, as the code has it: the probe runs first on every tick, locked or
    not; what follows it is the selection attempt whenever the tick was
    entered locked (whatever the probe reported) or the probe reported a
    card, and nothing otherwise. *)
Theorem C4_probe_on_every_tick w :
  firstn 4 (since w (tick w)) = probe_actions /\
  nth_error (since w (tick w)) 4 =
    (if locked w || cardPresent w then Some (select_action w) else None).
Proof.
  destruct (tick_journal_shape w) as (mid & _ & ->).
  rewrite <- selects_card_eq. now destruct (selects_card w).
Qed.

(** C8, as the code has it: a tick that reaches the selection attempt issues
    the halt once, as its last action, after the transition; a tick that
    leaves early (unlocked, no card) issues no halt. *)
Theorem C8_halt_after_selection w :
  exists before : list Action,
    forallb (fun a => negb (is_halt a)) before = true /\
    since w (tick w) =
      if selects_card w then before ++ [Call_PICC_HaltA] else before.
Proof.
  destruct (tick_journal_shape w) as (mid & Hmid & ->).
  destruct (selects_card w).
  - exists (probe_actions ++ select_action w :: mid). split.
    + cbn [probe_actions app forallb is_halt negb andb select_action].
      now apply output_not_halt.
    + cbn [probe_actions app]. reflexivity.
  - exists probe_actions. now split.
Qed.

(** C9: with a length whose bit count fits the [byte] parameter, a tick that
    attempts a selection calls [PICC_Select] once, on the current [Uid] and
    with 8 times its length as the number of known bits; the other ticks do
    not call it. *)
Theorem C9_known_bits w :
  0 <= 8 * size (rfid_uid w) < 256 ->
  filter is_select (since w (tick w)) =
    if selects_card w
    then [Call_PICC_Select (rfid_uid w) (8 * size (rfid_uid w))]
    else [].
Proof.
  intros Hfit. destruct (tick_journal_shape w) as (mid & Hmid & ->).
  destruct (selects_card w); [|reflexivity].
  cbn [probe_actions app filter is_select].
  rewrite filter_app, (output_not_select mid Hmid). cbn [filter is_halt is_select app].
  unfold select_action, to_byte. now rewrite Z.mod_small.
Qed.

(** The lengths the MFRC522 library produces (at most 10) keep the bit count
    inside the [byte] parameter, along every run. *)
Lemma ticks_size_bound (n : nat) w :
  (forall u bits hw, 0 <= size (snd (fst (PICC_Select u bits hw))) <= 10) ->
  0 <= size (rfid_uid w) <= 10 ->
  0 <= size (rfid_uid (ticks n w)) <= 10.
Proof.
  intros Hdrv. revert w. induction n as [|n IH]; intros w Hw; cbn [ticks]; [exact Hw|].
  apply IH. destruct (selects_card w) eqn:Hs.
  - destruct (tick_state_select w Hs) as [_ ->].
    destruct (StatusCode_eqb (select_result w) STATUS_OK).
    + apply Hdrv.
    + cbn [cleared size]. lia.
  - destruct (tick_state_idle w Hs) as [_ ->]. exact Hw.
Qed.

(** C10: the probe writes 0x00 to the transmit-mode register, 0x00 to the
    receive-mode register and 0x26 to the modulation-width register, then
    issues the wake-up, and reports a card exactly when the wake-up returns
    Ok or Collision. *)
Theorem C10_presence_probe w :
  since w (snd (PICC_IsAnyCardPresent w)) =
    [Call_PCD_WriteRegister TxModeReg 0x00;
     Call_PCD_WriteRegister RxModeReg 0x00;
     Call_PCD_WriteRegister ModWidthReg 0x26;
     Call_PICC_WakeupA 2] /\
  chip (snd (PICC_IsAnyCardPresent w)) =
    snd (PICC_WakeupA 2
           (PCD_WriteRegister ModWidthReg 0x26
              (PCD_WriteRegister RxModeReg 0x00
                 (PCD_WriteRegister TxModeReg 0x00 (chip w))))) /\
  (fst (PICC_IsAnyCardPresent w) = true <->
   wakeup_result w = STATUS_OK \/ wakeup_result w = STATUS_COLLISION) /\
  (fst (PICC_IsAnyCardPresent w) = false <->
   wakeup_result w <> STATUS_OK /\ wakeup_result w <> STATUS_COLLISION).
Proof.
  rewrite probe_eq. cbn [fst snd]. split; [|split; [reflexivity|]].
  - now erewrite since_app by reflexivity.
  - destruct (wakeup_result w); cbn [StatusCode_eqb orb]; split; split;
      intuition congruence.
Qed.

(** *** Locked and reconfirmed *)




End Properties.

(** ** The scenarios of the specification, run on the scripted driver *)

(** Scenario B after [setup]: one tick locks on the card, and the length 4
    goes with the locked state. *)
Lemma C1_witness :
  0 < size (rfid_uid (ticks 1 (snd (setup (power_on blank_uid (chip world_card_arrives))))))
  /\ locked (ticks 1 (snd (setup (power_on blank_uid (chip world_card_arrives))))) = true.
Proof.
  split; [reflexivity|].
  apply (C1_identifier_only_when_locked blank_uid (chip world_card_arrives) 1).
  reflexivity.
Defined.

(** Scenario C: the locked card is gone, the selection times out. *)
Lemma C2_witness :
  locked world_card_removed = true /\
  select_result world_card_removed <> STATUS_OK /\
  locked (tick world_card_removed) = false /\
  size (rfid_uid (tick world_card_removed)) = 0 /\
  serial_text (since world_card_removed (tick world_card_removed)) =
    ("unlocked! Reason for unlocking: Timeout in communication." ++ CRLF)%string /\
  lines_emitted (since world_card_removed (tick world_card_removed)) = 1%nat.
Proof.
  assert (Hr : select_result world_card_removed <> STATUS_OK)
    by (vm_compute; discriminate).
  split; [reflexivity|]. split; [exact Hr|].
  exact (C2_failed_selection_unlocks world_card_removed eq_refl Hr).
Defined.

(** Scenario B: the card 04 A2 3B 9C arrives. *)
Lemma C3_witness :
  locked world_card_arrives = false /\
  cardPresent world_card_arrives = true /\
  select_result world_card_arrives = STATUS_OK /\
  Uid_in_bounds (select_uid world_card_arrives) /\
  locked (tick world_card_arrives) = true /\
  rfid_uid (tick world_card_arrives) = card_04A23B9C /\
  serial_text (since world_card_arrives (tick world_card_arrives)) =
    ("locked! NUID tag: 04 A2 3B 9C " ++ CRLF)%string /\
  lines_emitted (since world_card_arrives (tick world_card_arrives)) = 1%nat.
Proof.
  assert (Hb : Uid_in_bounds (select_uid world_card_arrives))
    by (vm_compute; repeat split; discriminate).
  split; [reflexivity|]. split; [reflexivity|]. split; [reflexivity|].
  split; [exact Hb|].
  exact (C3_selection_locks world_card_arrives eq_refl eq_refl eq_refl Hb).
Defined.

(** The probe runs on a tick entered locked. *)
Lemma C4_counterexample :
  locked world_card_removed = true /\
  existsb is_wakeup (since world_card_removed (tick world_card_removed)) = true /\
  firstn 4 (since world_card_removed (tick world_card_removed)) =
    [Call_PCD_WriteRegister TxModeReg 0;
     Call_PCD_WriteRegister RxModeReg 0;
     Call_PCD_WriteRegister ModWidthReg 38;
     Call_PICC_WakeupA 2].
Proof. repeat split. Qed.



(** Scenario D: the selection fails on the checksum. *)
Lemma C6_witness :
  locked world_crc_error = false /\
  cardPresent world_crc_error = true /\
  select_result world_crc_error <> STATUS_OK /\
  size (select_uid world_crc_error) = 4 /\
  locked (tick world_crc_error) = false /\
  size (rfid_uid (tick world_crc_error)) = 0 /\
  serial_text (since world_crc_error (tick world_crc_error)) = "".
Proof.
  assert (Hr : select_result world_crc_error <> STATUS_OK)
    by (vm_compute; discriminate).
  split; [reflexivity|]. split; [reflexivity|]. split; [exact Hr|].
  split; [reflexivity|].
  assert (Hp : cardPresent world_crc_error = true) by reflexivity.
  destruct (C6_failed_selection_clears world_crc_error eq_refl Hp Hr)
    as (_ & Hl & _ & Hs & Ht & _).
  exact (conj Hl (conj Hs Ht)).
Defined.

(** Scenario A: nothing in the field. *)
Lemma C7_witness :
  locked world_idle = false /\
  cardPresent world_idle = false /\
  since world_idle (tick world_idle) =
    [Call_PCD_WriteRegister TxModeReg 0;
     Call_PCD_WriteRegister RxModeReg 0;
     Call_PCD_WriteRegister ModWidthReg 38;
     Call_PICC_WakeupA 2] /\
  locked (tick world_idle) = false /\
  rfid_uid (tick world_idle) = blank_uid.
Proof.
  split; [reflexivity|]. split; [reflexivity|].
  assert (Hp : cardPresent world_idle = false) by reflexivity.
  destruct (C7_early_exit world_idle eq_refl Hp)
    as (Hj & _ & _ & _ & _ & Hl & Hu).
  exact (conj Hj (conj Hl Hu)).
Defined.

(** No halt on the tick that leaves early. *)
Lemma C8_counterexample :
  locked world_idle = false /\
  cardPresent world_idle = false /\
  existsb is_halt (since world_idle (tick world_idle)) = false.
Proof. repeat split. Qed.

(** With no identifier held the selection is asked for any card: 0 known
    bits. *)
Lemma C9_witness :
  0 <= 8 * size (rfid_uid world_card_arrives) < 256 /\
  filter is_select (since world_card_arrives (tick world_card_arrives)) =
    [Call_PICC_Select blank_uid 0].
Proof.
  assert (H : 0 <= 8 * size (rfid_uid world_card_arrives) < 256)
    by (vm_compute; split; [discriminate|reflexivity]).
  split; [exact H|].
  exact (C9_known_bits world_card_arrives H).
Defined.

(** Locked on a four-byte identifier the selection is asked for 32 known
    bits. *)
Example known_bits_when_locked :
  filter is_select (since world_second_card (tick world_second_card)) =
    [Call_PICC_Select card_04A23B9C 32].
Proof. reflexivity. Qed.

(** ** Further properties of the sketch *)

Section Runs.

Context {HW : Type} {rfid : MFRC522 HW}.

Implicit Types (w : World HW) (u : Uid).

(** *** What one tick adds to the journal *)

Lemma tick_journal_extends w :
  journal (tick w) = journal w ++ since w (tick w).
Proof.
  assert (H : exists l, journal (tick w) = journal w ++ l).
  { destruct (selects_card w) eqn:Hs; unfold selects_card in Hs.
    - apply negb_true_iff in Hs.
      destruct (select_result_dec w) as [Hr|Hr]; destruct (locked w) eqn:Hl;
        cbn [negb andb] in Hs; try apply negb_false_iff in Hs.
      + rewrite (tick_keep w Hl Hr). eexists. reflexivity.
      + destruct (tick_lock_any w Hl Hs Hr) as (l & _ & ->). eexists. reflexivity.
      + rewrite (tick_unlock w Hl Hr). eexists. reflexivity.
      + rewrite (tick_clear w Hl Hs Hr). eexists. reflexivity.
    - apply negb_false_iff, andb_true_iff in Hs. destruct Hs as [Hl Hp].
      apply negb_true_iff in Hl, Hp.
      rewrite (tick_early_exit w Hl Hp). eexists. reflexivity. }
  destruct H as (l & E). now rewrite (since_app w (tick w) l E).
Qed.

Lemma ticks_journal_extends (n : nat) w :
  journal (ticks n w) = journal w ++ since w (ticks n w).
Proof.
  revert w. induction n as [|n IH]; intros w; cbn [ticks].
  - unfold since. rewrite skipn_all. now rewrite app_nil_r.
  - assert (E : journal (ticks n (tick w)) =
                journal w ++ since w (tick w) ++ since (tick w) (ticks n (tick w))).
    { rewrite IH, (tick_journal_extends w) at 1. now rewrite <- app_assoc. }
    now rewrite (since_app w _ _ E).
Qed.

Lemma since_ticks_S (n : nat) w :
  since w (ticks (S n) w) =
  since w (tick w) ++ since (tick w) (ticks n (tick w)).
Proof.
  cbn [ticks]. apply since_app.
  rewrite (ticks_journal_extends n (tick w)), (tick_journal_extends w) at 1.
  now rewrite <- app_assoc.
Qed.

Lemma prints_no_lines (l : list Action) :
  forallb is_print l = true -> lines_emitted l = 0%nat.
Proof.
  induction l as [|a l IH]; [reflexivity|]. cbn [forallb].
  intros H. apply andb_true_iff in H. destruct H as [Ha Hl].
  destruct a; try discriminate Ha. cbn [lines_emitted]. auto.
Qed.

Lemma prints_no_breaks (l : list Action) :
  forallb is_print l = true -> filter (fun a => negb (is_print a)) l = [].
Proof.
  induction l as [|a l IH]; [reflexivity|]. cbn [forallb filter].
  intros H. apply andb_true_iff in H. destruct H as [Ha Hl].
  rewrite Ha. cbn [negb]. auto.
Qed.

(** The lines a tick prints: one when the lock state changes, none when it
    does not; and a tick that keeps the lock state sends nothing at all. *)
Lemma tick_output w :
  if Bool.eqb (locked w) (locked (tick w))
  then filter is_output (since w (tick w)) = []
  else lines_emitted (since w (tick w)) = 1%nat.
Proof.
  destruct (selects_card w) eqn:Hs; unfold selects_card in Hs.
  - apply negb_true_iff in Hs.
    destruct (select_result_dec w) as [Hr|Hr]; destruct (locked w) eqn:Hl;
      cbn [negb andb] in Hs; try apply negb_false_iff in Hs.
    + rewrite (tick_keep w Hl Hr). cbn [locked Bool.eqb].
      now erewrite since_app by reflexivity.
    + destruct (tick_lock_any w Hl Hs Hr) as (l & Hprints & ->).
      cbn [locked Bool.eqb]. erewrite since_app by reflexivity.
      rewrite lines_emitted_probe. cbn [app select_action lines_emitted].
      rewrite lines_emitted_app, (prints_no_lines l Hprints). reflexivity.
    + rewrite (tick_unlock w Hl Hr). cbn [locked Bool.eqb].
      now erewrite since_app by reflexivity.
    + rewrite (tick_clear w Hl Hs Hr). cbn [locked Bool.eqb].
      now erewrite since_app by reflexivity.
  - apply negb_false_iff, andb_true_iff in Hs. destruct Hs as [Hl Hp].
    apply negb_true_iff in Hl, Hp.
    rewrite (tick_early_exit w Hl Hp). unfold after_probe at 1. cbn [locked].
    rewrite Hl. cbn [Bool.eqb]. now erewrite since_app by reflexivity.
Qed.

Lemma output_no_lines (l : list Action) :
  filter is_output l = [] -> lines_emitted l = 0%nat.
Proof.
  induction l as [|a l IH]; [reflexivity|]. cbn [filter].
  destruct a; cbn [is_output lines_emitted]; try exact IH; discriminate.
Qed.

Lemma tick_lines w :
  lines_emitted (since w (tick w)) =
  if Bool.eqb (locked w) (locked (tick w)) then 0%nat else 1%nat.
Proof.
  pose proof (tick_output w) as H.
  destruct (Bool.eqb (locked w) (locked (tick w))); [|exact H].
  now apply output_no_lines.
Qed.

(** X1: the lock state after a tick that attempts a selection is the outcome
    of that attempt, whatever the lock state was before and whatever the
    probe reported; the length is then the one the selection left, or 0 when
    it failed.  A tick that does not attempt a selection keeps both. *)
Theorem lock_state_follows_selection w :
  locked (tick w) =
    (if selects_card w then StatusCode_eqb (select_result w) STATUS_OK
     else locked w) /\
  size (rfid_uid (tick w)) =
    (if selects_card w
     then (if StatusCode_eqb (select_result w) STATUS_OK
           then size (select_uid w) else 0)
     else size (rfid_uid w)).
Proof.
  destruct (selects_card w) eqn:Hs.
  - destruct (tick_state_select w Hs) as [-> ->].
    now destruct (StatusCode_eqb (select_result w) STATUS_OK).
  - now destruct (tick_state_idle w Hs) as [-> ->].
Qed.

(** X2: a tick prints exactly one line when it changes the lock state, and
    sends nothing to the serial port when it does not. *)
Theorem one_line_per_transition w :
  (if Bool.eqb (locked w) (locked (tick w))
   then filter is_output (since w (tick w)) = []
   else lines_emitted (since w (tick w)) = 1%nat) /\
  lines_emitted (since w (tick w)) =
    (if Bool.eqb (locked w) (locked (tick w)) then 0%nat else 1%nat).
Proof. split; [apply tick_output|apply tick_lines]. Qed.

Lemma ticks_lines_parity (n : nat) w :
  Nat.even (lines_emitted (journal w)) = locked w ->
  Nat.even (lines_emitted (journal (ticks n w))) = locked (ticks n w).
Proof.
  revert w. induction n as [|n IH]; intros w Inv; cbn [ticks]; [exact Inv|].
  apply IH. rewrite (tick_journal_extends w), lines_emitted_app, tick_lines.
  destruct (locked w), (locked (tick w)); cbn [Bool.eqb];
    rewrite ?Nat.add_0_r, ?Nat.add_1_r, ?Nat.even_succ, <- ?Nat.negb_even, ?Inv;
    reflexivity.
Qed.

(** X3: along every run from [setup] the number of lines on the serial port
    tells the lock state: it is even exactly when the sketch is locked (the
    banner, then one line per transition and nothing else). *)
Theorem line_count_tells_lock_state (u : Uid) (hw : HW) (n : nat) :
  Nat.even (lines_emitted (journal (ticks n (snd (setup (power_on u hw)))))) =
  locked (ticks n (snd (setup (power_on u hw)))).
Proof. apply ticks_lines_parity. reflexivity. Qed.

(** X4: the sketch never writes the bytes or the SAK of [rfid.uid], only its
    length: after a tick they are what the selection left behind the pointer
    (also when the length was cleared), or what they were when no selection
    was attempted. *)
Theorem sketch_writes_only_size w :
  uidByte (rfid_uid (tick w)) =
    uidByte (if selects_card w then select_uid w else rfid_uid w) /\
  sak (rfid_uid (tick w)) =
    sak (if selects_card w then select_uid w else rfid_uid w).
Proof.
  destruct (selects_card w) eqn:Hs.
  - destruct (tick_state_select w Hs) as [_ ->].
    now destruct (StatusCode_eqb (select_result w) STATUS_OK).
  - now destruct (tick_state_idle w Hs) as [_ ->].
Qed.

(** *** Unlocked means no identifier *)

Lemma tick_keeps_unlocked_empty w :
  (locked w = false -> size (rfid_uid w) = 0) ->
  locked (tick w) = false -> size (rfid_uid (tick w)) = 0.
Proof.
  intros Inv. destruct (selects_card w) eqn:Hs.
  - destruct (tick_state_select w Hs) as [-> ->].
    destruct (StatusCode_eqb (select_result w) STATUS_OK);
      [discriminate|reflexivity].
  - destruct (tick_state_idle w Hs) as [-> ->]. exact Inv.
Qed.

Lemma ticks_keep_unlocked_empty (n : nat) w :
  (locked w = false -> size (rfid_uid w) = 0) ->
  locked (ticks n w) = false -> size (rfid_uid (ticks n w)) = 0.
Proof.
  revert w. induction n as [|n IH]; intros w Inv; cbn [ticks]; [exact Inv|].
  apply IH. now apply tick_keeps_unlocked_empty.
Qed.

(** X5: along every run from [setup], a tick entered unlocked that detects a
    card holds a length of exactly 0 and asks the selection for any card: 0
    known bits. *)
Theorem unlocked_selects_any_card (u : Uid) (hw : HW) (n : nat) :
  locked (ticks n (snd (setup (power_on u hw)))) = false ->
  cardPresent (ticks n (snd (setup (power_on u hw)))) = true ->
  size (rfid_uid (ticks n (snd (setup (power_on u hw))))) = 0 /\
  filter is_select
    (since (ticks n (snd (setup (power_on u hw))))
       (tick (ticks n (snd (setup (power_on u hw)))))) =
    [Call_PICC_Select (rfid_uid (ticks n (snd (setup (power_on u hw))))) 0].
Proof.
  set (w := ticks n (snd (setup (power_on u hw)))). intros Hl Hp.
  assert (Hz : size (rfid_uid w) = 0)
    by (apply ticks_keep_unlocked_empty; [reflexivity|exact Hl]).
  split; [exact Hz|].
  destruct (tick_journal_shape w) as (mid & Hmid & ->).
  rewrite (selects_when_present w Hp).
  cbn [probe_actions app filter is_select].
  rewrite filter_app, (output_not_select mid Hmid). cbn [filter is_select app].
  unfold select_action. now rewrite Hz.
Qed.

(** X6: with a driver whose successful selections leave a length above 0, as
    the library's do, the sketch is locked exactly when it holds an
    identifier, along every run from [setup]. *)
Theorem locked_iff_identifier (u : Uid) (hw : HW) (n : nat) :
  (forall u' bits hw',
      fst (fst (PICC_Select u' bits hw')) = STATUS_OK ->
      0 < size (snd (fst (PICC_Select u' bits hw')))) ->
  locked (ticks n (snd (setup (power_on u hw)))) =
  (0 <? size (rfid_uid (ticks n (snd (setup (power_on u hw)))))).
Proof.
  intros Hdrv.
  assert (Inv : forall m w,
            locked w = (0 <? size (rfid_uid w)) ->
            locked (ticks m w) = (0 <? size (rfid_uid (ticks m w)))).
  { induction m as [|m IH]; intros w Hw; cbn [ticks]; [exact Hw|].
    apply IH. destruct (selects_card w) eqn:Hs.
    - destruct (tick_state_select w Hs) as [-> ->].
      destruct (StatusCode_eqb (select_result w) STATUS_OK) eqn:Hr.
      + apply StatusCode_eqb_eq in Hr. symmetry. apply Z.ltb_lt.
        apply (Hdrv _ _ _ Hr).
      + reflexivity.
    - now destruct (tick_state_idle w Hs) as [-> ->]. }
  apply Inv. reflexivity.
Qed.

(** X7: with a driver whose successful selections leave a length of at most
    10, as the library's do, no selection of a run from [setup] loses bits
    to the [byte] parameter: a tick that attempts one calls [PICC_Select]
    once, with exactly 8 times the current length. *)
Theorem select_bits_along_run (u : Uid) (hw : HW) (n : nat) :
  (forall u' bits hw',
      fst (fst (PICC_Select u' bits hw')) = STATUS_OK ->
      0 <= size (snd (fst (PICC_Select u' bits hw'))) <= 10) ->
  filter is_select
    (since (ticks n (snd (setup (power_on u hw))))
       (tick (ticks n (snd (setup (power_on u hw)))))) =
    if selects_card (ticks n (snd (setup (power_on u hw))))
    then [Call_PICC_Select (rfid_uid (ticks n (snd (setup (power_on u hw)))))
            (8 * size (rfid_uid (ticks n (snd (setup (power_on u hw))))))]
    else [].
Proof.
  intros Hdrv.
  assert (Inv : forall m w,
            0 <= size (rfid_uid w) <= 10 ->
            0 <= size (rfid_uid (ticks m w)) <= 10).
  { induction m as [|m IH]; intros w Hw; cbn [ticks]; [exact Hw|].
    apply IH. destruct (selects_card w) eqn:Hs.
    - destruct (tick_state_select w Hs) as [_ ->].
      destruct (StatusCode_eqb (select_result w) STATUS_OK) eqn:Hr.
      + apply StatusCode_eqb_eq in Hr. apply (Hdrv _ _ _ Hr).
      + cbn [cleared size]. lia.
    - now destruct (tick_state_idle w Hs) as [_ ->]. }
  set (w := ticks n (snd (setup (power_on u hw)))).
  assert (Hw : 0 <= size (rfid_uid w) <= 10)
    by (apply Inv; cbn [setup]; split; [reflexivity|discriminate]).
  destruct (tick_journal_shape w) as (mid & Hmid & ->).
  destruct (selects_card w); [|reflexivity].
  cbn [probe_actions app filter is_select].
  rewrite filter_app, (output_not_select mid Hmid). cbn [filter is_select app].
  unfold select_action, to_byte. rewrite Z.mod_small by lia. reflexivity.
Qed.

(** *** Counting the calls of a run *)

Lemma count_app (f : Action -> bool) (a b : list Action) :
  count f (a ++ b) = (count f a + count f b)%nat.
Proof. unfold count. now rewrite filter_app, length_app. Qed.

Lemma output_count_zero (f : Action -> bool) (l : list Action) :
  (forall a, is_output a = true -> f a = false) ->
  forallb is_output l = true -> count f l = 0%nat.
Proof.
  intros Hf. induction l as [|a l IH]; [reflexivity|]. cbn [forallb].
  intros H. apply andb_true_iff in H. destruct H as [Ha Hl].
  unfold count. cbn [filter]. rewrite (Hf a Ha). now apply IH.
Qed.

Lemma tick_counts w :
  count is_wakeup (since w (tick w)) = 1%nat /\
  count is_select (since w (tick w)) = (if selects_card w then 1%nat else 0%nat) /\
  count is_halt (since w (tick w)) = (if selects_card w then 1%nat else 0%nat).
Proof.
  destruct (tick_journal_shape w) as (mid & Hmid & ->).
  destruct (selects_card w); [|now repeat split].
  change (probe_actions ++ select_action w :: mid ++ [Call_PICC_HaltA])
    with ((probe_actions ++ [select_action w]) ++ mid ++ [Call_PICC_HaltA]).
  rewrite !count_app.
  rewrite (output_count_zero is_wakeup mid), (output_count_zero is_select mid),
    (output_count_zero is_halt mid); try assumption;
    try (intros a; destruct a; cbn; congruence).
  now repeat split.
Qed.

Lemma one_wakeup_per_tick_aux (n : nat) w :
  count is_wakeup (since w (ticks n w)) = n /\
  count is_halt (since w (ticks n w)) = count is_select (since w (ticks n w)) /\
  (count is_select (since w (ticks n w)) <= n)%nat.
Proof.
  revert w. induction n as [|n IH]; intros w.
  - cbn [ticks]. unfold since. rewrite skipn_all. now repeat split.
  - rewrite since_ticks_S, !count_app.
    destruct (tick_counts w) as (Hw & Hs & Hh).
    destruct (IH (tick w)) as (IHw & IHh & IHs).
    rewrite Hw, Hs, Hh, IHw, IHh.
    repeat split; destruct (selects_card w); lia.
Qed.

(** X8: a run of [n] ticks issues exactly [n] wake-ups, and as many halts as
    selection attempts, at most one of each per tick: every card the sketch
    addresses is halted again. *)
Theorem one_wakeup_per_tick (n : nat) w :
  count is_wakeup (since w (ticks n w)) = n /\
  count is_halt (since w (ticks n w)) = count is_select (since w (ticks n w)) /\
  (count is_select (since w (ticks n w)) <= n)%nat.
Proof. apply one_wakeup_per_tick_aux. Qed.

(** *** Ticks with nothing in the field *)

(** X9: while unlocked, any number of ticks on which the probe reports no
    card change neither the lock state nor [rfid.uid], print nothing, and
    cost the four calls of the probe each. *)
Theorem idle_ticks_only_probe (n : nat) w :
  locked w = false ->
  (forall k, (k < n)%nat -> cardPresent (ticks k w) = false) ->
  locked (ticks n w) = false /\
  rfid_uid (ticks n w) = rfid_uid w /\
  since w (ticks n w) = List.concat (repeat probe_actions n).
Proof.
  revert w. induction n as [|n IH]; intros w Hl Hp.
  - cbn [ticks]. unfold since. rewrite skipn_all. now repeat split.
  - pose proof (Hp 0%nat ltac:(lia)) as Hp0. cbn [ticks] in Hp0.
    assert (E : tick w = after_probe w) by now apply tick_early_exit.
    destruct (IH (tick w)) as (Hl' & Hu' & Hj').
    { now rewrite E. }
    { intros k Hk. apply (Hp (S k)). lia. }
    rewrite since_ticks_S. cbn [ticks repeat List.concat].
    rewrite Hl', Hu', Hj'. repeat split.
    + now rewrite E.
    + f_equal. rewrite E. now erewrite since_app by reflexivity.
Qed.

(** *** A new card after a removal *)

(** X10: when the selection of the locked card fails and, on the next tick,
    a card is detected and selected, the sketch ends locked on the [Uid] of
    that selection; the selection was asked for any card (0 known bits, on
    the cleared [Uid]) and the two ticks print two lines. *)
Theorem new_card_after_removal w :
  locked w = true -> select_result w <> STATUS_OK ->
  cardPresent (tick w) = true -> select_result (tick w) = STATUS_OK ->
  locked (ticks 2 w) = true /\
  rfid_uid (ticks 2 w) = select_uid (tick w) /\
  filter is_select (since (tick w) (ticks 2 w)) =
    [Call_PICC_Select (cleared (select_uid w)) 0] /\
  lines_emitted (since w (ticks 2 w)) = 2%nat.
Proof.
  intros Hl Hr Hp' Hr'.
  assert (Hl1 : locked (tick w) = false) by now rewrite (tick_unlock w Hl Hr).
  assert (Hu1 : rfid_uid (tick w) = cleared (select_uid w))
    by now rewrite (tick_unlock w Hl Hr).
  pose proof (tick_lines w) as Hn1.
  pose proof (tick_lines (tick w)) as Hn2.
  rewrite since_ticks_S, lines_emitted_app. cbn [ticks].
  destruct (tick_state_select (tick w) (selects_when_present _ Hp')) as [Hl2 Hu2].
  rewrite Hr' in Hl2, Hu2. cbn [StatusCode_eqb] in Hl2, Hu2.
  rewrite Hl, Hl1 in Hn1. rewrite Hl1, Hl2 in Hn2. cbn [Bool.eqb] in Hn1, Hn2.
  rewrite Hn1, Hn2. repeat split; try assumption.
  destruct (tick_journal_shape (tick w)) as (mid & Hmid & ->).
  rewrite (selects_when_present _ Hp').
  cbn [probe_actions app filter is_select].
  rewrite filter_app, (output_not_select mid Hmid). cbn [filter is_select app].
  unfold select_action. rewrite Hu1. reflexivity.
Qed.

(** *** Initialisation *)

Lemma tick_no_init w : count is_init (since w (tick w)) = 0%nat.
Proof.
  destruct (tick_journal_shape w) as (mid & Hmid & ->).
  destruct (selects_card w); [|reflexivity].
  change (probe_actions ++ select_action w :: mid ++ [Call_PICC_HaltA])
    with ((probe_actions ++ [select_action w]) ++ mid ++ [Call_PICC_HaltA]).
  rewrite !count_app, (output_count_zero is_init mid);
    [reflexivity| |assumption].
  intros a; destruct a; cbn; congruence.
Qed.

Lemma ticks_no_init (n : nat) w : count is_init (since w (ticks n w)) = 0%nat.
Proof.
  revert w. induction n as [|n IH]; intros w.
  - cbn [ticks]. unfold since. now rewrite skipn_all.
  - now rewrite since_ticks_S, count_app, tick_no_init, IH.
Qed.

(** X13: the journal of every run starts with the six actions of [setup],
    which clear the length and keep the bytes of [rfid.uid]; the reader is
    initialised exactly once in the whole run, before the first wake-up, and
    the serial text starts with the banner line. *)
Theorem setup_once_and_first (u : Uid) (hw : HW) (n : nat) :
  rfid_uid (snd (setup (power_on u hw))) = cleared u /\
  journal (ticks n (snd (setup (power_on u hw)))) =
    setup_actions ++
    since (snd (setup (power_on u hw))) (ticks n (snd (setup (power_on u hw)))) /\
  count is_init (journal (ticks n (snd (setup (power_on u hw))))) = 1%nat /\
  count is_wakeup (journal (ticks n (snd (setup (power_on u hw))))) = n /\
  serial_text (journal (ticks n (snd (setup (power_on u hw))))) =
    ("This code scan the MIFARE Classsic NUID and reports removal." ++ CRLF ++
     serial_text
       (since (snd (setup (power_on u hw)))
          (ticks n (snd (setup (power_on u hw))))))%string.
Proof.
  split; [reflexivity|].
  rewrite (ticks_journal_extends n (snd (setup (power_on u hw)))).
  change (journal (snd (setup (power_on u hw)))) with setup_actions.
  rewrite !count_app, ticks_no_init.
  destruct (one_wakeup_per_tick_aux n (snd (setup (power_on u hw)))) as (-> & _).
  rewrite serial_text_app.
  now repeat split.
Qed.

(** *** The hex dump *)

Lemma hex_dump_length (bytes : list Z) :
  String.length (hex_dump bytes) = (3 * List.length bytes)%nat.
Proof.
  induction bytes as [|b rest IH]; [reflexivity|].
  cbn [hex_dump two_hex_digits String.append String.length List.length].
  rewrite IH. lia.
Qed.

Lemma hex_dump_inj (a b : list Z) :
  Forall (fun x => 0 <= x < 256) a -> Forall (fun x => 0 <= x < 256) b ->
  hex_dump a = hex_dump b -> a = b.
Proof.
  intros Ha. revert b. induction Ha as [|x a Hx Ha IH]; intros b Hb E;
    destruct Hb as [|y b Hy Hb]; cbn [hex_dump two_hex_digits String.append] in E;
    try discriminate E; [reflexivity|].
  injection E as E1 E2 E3.
  assert (Ev : hex_value (two_hex_digits x) = hex_value (two_hex_digits y))
    by (unfold two_hex_digits; now rewrite E1, E2).
  rewrite !hex_value_two_hex_digits in Ev by assumption.
  injection Ev as ->. f_equal. now apply IH.
Qed.

(** X11: [printHex] on the first [bufferSize] bytes of a buffer sends three
    characters per byte (two hexadecimal digits and a space) and no line
    end, and leaves the lock state, [rfid.uid] and the chip alone; with
    [bufferSize] 0 it sends nothing. *)
Theorem printHex_text (buffer : list Z) (bufferSize : Z) w :
  0 <= bufferSize < 256 ->
  bufferSize <= Z.of_nat (List.length buffer) ->
  serial_text (since w (snd (printHex buffer bufferSize w))) =
    hex_dump (firstn (Z.to_nat bufferSize) buffer) /\
  String.length (serial_text (since w (snd (printHex buffer bufferSize w)))) =
    (3 * Z.to_nat bufferSize)%nat /\
  lines_emitted (since w (snd (printHex buffer bufferSize w))) = 0%nat /\
  locked (snd (printHex buffer bufferSize w)) = locked w /\
  rfid_uid (snd (printHex buffer bufferSize w)) = rfid_uid w /\
  chip (snd (printHex buffer bufferSize w)) = chip w.
Proof.
  intros Hb Hlen. rewrite printHex_eq by assumption. cbn [snd].
  unfold journal_add at 1 2 3. erewrite since_app by reflexivity.
  rewrite serial_text_printHex, lines_emitted_printHex, hex_dump_length.
  rewrite length_firstn, Nat.min_l by lia.
  now repeat split.
Qed.

(** X12: the dump tells identifiers apart: two runs of [printHex] over bytes
    send the same text only when they dumped the same bytes. *)
Theorem printHex_injective (b1 b2 : list Z) (n1 n2 : Z) w1 w2 :
  0 <= n1 < 256 -> n1 <= Z.of_nat (List.length b1) ->
  0 <= n2 < 256 -> n2 <= Z.of_nat (List.length b2) ->
  Forall (fun x => 0 <= x < 256) (firstn (Z.to_nat n1) b1) ->
  Forall (fun x => 0 <= x < 256) (firstn (Z.to_nat n2) b2) ->
  serial_text (since w1 (snd (printHex b1 n1 w1))) =
  serial_text (since w2 (snd (printHex b2 n2 w2))) ->
  firstn (Z.to_nat n1) b1 = firstn (Z.to_nat n2) b2.
Proof.
  intros H1 L1 H2 L2 F1 F2.
  rewrite !printHex_eq by assumption. cbn [snd].
  unfold journal_add. erewrite !since_app by reflexivity.
  rewrite !serial_text_printHex. now apply hex_dump_inj.
Qed.

End Runs.

(** ** Runs on the two drivers *)

(** After the card has come and gone the sketch is unlocked with stale
    bytes and length 0, and the third tick asks for any card. *)
Lemma unlocked_selects_any_card_witness :
  locked (ticks 2 (snd (setup (power_on blank_uid script_takeover)))) = false /\
  cardPresent (ticks 2 (snd (setup (power_on blank_uid script_takeover)))) = true /\
  size (rfid_uid (ticks 2 (snd (setup (power_on blank_uid script_takeover))))) = 0 /\
  filter is_select
    (since (ticks 2 (snd (setup (power_on blank_uid script_takeover))))
       (tick (ticks 2 (snd (setup (power_on blank_uid script_takeover)))))) =
    [Call_PICC_Select (mkUid 0 [4; 162; 59; 156; 0; 0; 0; 0; 0; 0] 8) 0].
Proof.
  assert (Hl : locked (ticks 2 (snd (setup (power_on blank_uid script_takeover))))
               = false) by reflexivity.
  assert (Hp : cardPresent (ticks 2 (snd (setup (power_on blank_uid script_takeover))))
               = true) by reflexivity.
  split; [exact Hl|]. split; [exact Hp|].
  exact (unlocked_selects_any_card blank_uid script_takeover 2 Hl Hp).
Defined.

Lemma field_select_ok_size (u : Uid) (bits : Z) (f : list Card) :
  fst (fst (field_Select u bits f)) = STATUS_OK ->
  size (snd (fst (field_Select u bits f))) = 4.
Proof.
  unfold field_Select.
  destruct (if bits =? 0 then hd_error f else find (card_matches u) f);
    cbn [fst snd]; [reflexivity|discriminate].
Defined.

(** Card A lies in the field for three ticks. *)
Lemma locked_iff_identifier_witness :
  (forall u bits f,
      fst (fst (field_Select u bits f)) = STATUS_OK ->
      0 < size (snd (fst (field_Select u bits f)))) /\
  locked (ticks 3 (snd (setup (power_on blank_uid [card_A])))) = true /\
  size (rfid_uid (ticks 3 (snd (setup (power_on blank_uid [card_A]))))) = 4.
Proof.
  assert (Hdrv : forall u bits f,
             fst (fst (field_Select u bits f)) = STATUS_OK ->
             0 < size (snd (fst (field_Select u bits f)))).
  { intros u bits f H. rewrite (field_select_ok_size u bits f H). reflexivity. }
  split; [exact Hdrv|]. split; [|reflexivity].
  exact (locked_iff_identifier blank_uid [card_A] 3 Hdrv).
Defined.

(** Cards A and B lie in the field; the second tick reconfirms card A with
    32 known bits. *)
Lemma select_bits_along_run_witness :
  (forall u bits f,
      fst (fst (field_Select u bits f)) = STATUS_OK ->
      0 <= size (snd (fst (field_Select u bits f))) <= 10) /\
  filter is_select
    (since (ticks 1 (snd (setup (power_on blank_uid [card_A; card_B]))))
       (tick (ticks 1 (snd (setup (power_on blank_uid [card_A; card_B])))))) =
    [Call_PICC_Select (uid_of_card card_A) 32].
Proof.
  assert (Hdrv : forall u bits f,
             fst (fst (field_Select u bits f)) = STATUS_OK ->
             0 <= size (snd (fst (field_Select u bits f))) <= 10).
  { intros u bits f H. rewrite (field_select_ok_size u bits f H).
    split; discriminate. }
  split; [exact Hdrv|].
  exact (select_bits_along_run blank_uid [card_A; card_B] 1 Hdrv).
Defined.

(** Three ticks on an empty field. *)
Lemma idle_ticks_only_probe_witness :
  locked world_idle = false /\
  (forall k, (k < 3)%nat -> cardPresent (ticks k world_idle) = false) /\
  locked (ticks 3 world_idle) = false /\
  rfid_uid (ticks 3 world_idle) = blank_uid /\
  List.length (since world_idle (ticks 3 world_idle)) = 12%nat.
Proof.
  assert (Hp : forall k, (k < 3)%nat -> cardPresent (ticks k world_idle) = false).
  { intros k Hk. destruct k as [|[|[|k]]]; [reflexivity|reflexivity|reflexivity|lia]. }
  split; [reflexivity|]. split; [exact Hp|].
  destruct (idle_ticks_only_probe 3 world_idle eq_refl Hp) as (Hl & Hu & Hj).
  split; [exact Hl|]. split; [exact Hu|]. rewrite Hj. reflexivity.
Defined.

(** Card 04 A2 3B 9C is removed and card DE AD BE EF takes its place. *)
Lemma new_card_after_removal_witness :
  locked (tick (snd (setup (power_on blank_uid script_takeover)))) = true /\
  select_result (tick (snd (setup (power_on blank_uid script_takeover))))
    <> STATUS_OK /\
  cardPresent (tick (tick (snd (setup (power_on blank_uid script_takeover)))))
    = true /\
  select_result (tick (tick (snd (setup (power_on blank_uid script_takeover)))))
    = STATUS_OK /\
  select_uid (tick (tick (snd (setup (power_on blank_uid script_takeover)))))
    = uid_of_card card_B /\
  locked (ticks 2 (tick (snd (setup (power_on blank_uid script_takeover)))))
    = true /\
  rfid_uid (ticks 2 (tick (snd (setup (power_on blank_uid script_takeover)))))
    = select_uid (tick (tick (snd (setup (power_on blank_uid script_takeover))))).
Proof.
  assert (Hl : locked (tick (snd (setup (power_on blank_uid script_takeover))))
               = true) by (vm_compute; reflexivity).
  assert (Hr : select_result (tick (snd (setup (power_on blank_uid script_takeover))))
               <> STATUS_OK) by (vm_compute; discriminate).
  assert (Hp : cardPresent
                 (tick (tick (snd (setup (power_on blank_uid script_takeover)))))
               = true) by (vm_compute; reflexivity).
  assert (Hr' : select_result
                  (tick (tick (snd (setup (power_on blank_uid script_takeover)))))
                = STATUS_OK) by (vm_compute; reflexivity).
  split; [exact Hl|]. split; [exact Hr|]. split; [exact Hp|]. split; [exact Hr'|].
  split; [vm_compute; reflexivity|].
  destruct (new_card_after_removal
              (tick (snd (setup (power_on blank_uid script_takeover))))
              Hl Hr Hp Hr') as (Hl2 & Hu2 & _).
  split; [exact Hl2|exact Hu2].
Defined.

(** The dump of four bytes is twelve characters. *)
Lemma printHex_text_witness :
  0 <= 4 < 256 /\
  4 <= Z.of_nat (List.length (uidByte card_04A23B9C)) /\
  serial_text (since world_idle (snd (printHex (uidByte card_04A23B9C) 4 world_idle)))
    = "04 A2 3B 9C " /\
  String.length
    (serial_text (since world_idle (snd (printHex (uidByte card_04A23B9C) 4 world_idle))))
    = 12%nat.
Proof.
  assert (H1 : 0 <= 4 < 256) by lia.
  assert (H2 : 4 <= Z.of_nat (List.length (uidByte card_04A23B9C)))
    by (cbn; lia).
  split; [exact H1|]. split; [exact H2|].
  destruct (printHex_text (uidByte card_04A23B9C) 4 world_idle H1 H2)
    as (Ht & Hn & _).
  split; [exact Ht|exact Hn].
Defined.

(** Two buffers that differ only past the dumped bytes. *)
Lemma printHex_injective_witness :
  serial_text (since world_idle (snd (printHex [4; 162; 59] 2 world_idle))) =
  serial_text (since world_idle (snd (printHex [4; 162; 77; 1] 2 world_idle))) /\
  firstn 2 [4; 162; 59] = firstn 2 [4; 162; 77; 1].
Proof.
  split; [reflexivity|].
  apply (printHex_injective [4; 162; 59] [4; 162; 77; 1] 2 2 world_idle world_idle);
    try (cbn; lia); try reflexivity;
    repeat constructor; lia.
Defined.
